(** * Serialization: type registries and archive adapters

    A shallow embedding of
      - [util/registry.h]: [Registry], [creator::Registry], [Registerer];
      - [common/archiver_wrapper.h]: the enum helpers [to_json] and
        [from_json], [archiver_wrapper<json>] and
        [archiver_wrapper<multi_process_stream>];
      - the implementation of [serialization_impl::access]: [read_binary]
        and [write_binary].

    Conventions.
      - C++ exceptions are values of [exception]; a call that may throw
        returns a [result].
      - Code that touches state outside its arguments (a callback stored in
        a registry) is a computation [comp W A] over that state [W]: even
        when it throws, the state it leaves behind is returned.
      - The reader-writer lock of the registries serialises the calls; the
        embedding describes one call at a time and has no lock.
      - [int] and [unsigned int] are 32 bits wide, [size_t] is 64 bits wide
        (LP64 and LLP64: every platform [util/configure.h] detects). *)

From Stdlib Require Import ZArith List Lia.
From Stdlib Require Import Strings.Byte.
From Stdlib Require Import Floats.SpecFloat.
From stdpp Require Import gmap strings list fin_maps.

Local Open Scope Z_scope.

(** ** Exceptions and results *)

Inductive exception : Type :=
| out_of_range (what : string)          (* std::out_of_range *)
| bad_function_call                     (* std::bad_function_call *)
| length_error (what : string)          (* std::length_error *)
| type_error (id : Z) (what : string)   (* nlohmann::json::type_error *)
| stream_underflow                      (* extraction past the end of a stream *)
| undefined_conversion.                 (* a conversion the language leaves undefined *)

Inductive result (A : Type) : Type :=
| Ok (a : A)
| Throw (e : exception).

Arguments Ok {A} a.
Arguments Throw {A} e.

Definition result_bind {A B : Type} (r : result A) (k : A -> result B) : result B :=
  match r with
  | Ok a => k a
  | Throw e => Throw e
  end.

(** A computation over an ambient state [W]: the result, or the exception
    thrown, and the state left behind. *)
Definition comp (W A : Type) : Type := W -> result A * W.

(** ** [std::function]

    A [std::function] is either empty or holds a callable target; calling an
    empty one throws [std::bad_function_call]. *)

Inductive function (W Args Ret : Type) : Type :=
| empty_function
| target (f : Args -> comp W Ret).

Arguments empty_function {W Args Ret}.
Arguments target {W Args Ret} f.

Definition invoke {W Args Ret : Type}
    (f : function W Args Ret) (args : Args) : comp W Ret :=
  match f with
  | empty_function => fun w => (Throw bad_function_call, w)
  | target g => g args
  end.

(** ** [Registry<KeyType, Function>]  (util/registry.h) *)

Module Registry.
Section Registry.
Context {KeyType : Type} `{Countable KeyType}.
Context {W Args Ret : Type}.

(** [std::string(key)], used to build the message of [Run]. *)
Variable std_string : KeyType -> string.

(** The member [registry_]. *)
Abbreviation registry := (gmap KeyType (function W Args Ret)).

(** [registry_[key] = std::move(f)] (both overloads). *)
Definition Register (key : KeyType) (f : function W Args Ret)
    (registry_ : registry) : registry :=
  <[key := f]> registry_.

(** [registry_.contains(key)] (both overloads). *)
Definition Has (key : KeyType) (registry_ : registry) : bool :=
  match registry_ !! key with
  | Some _ => true
  | None => false
  end.

Definition Run (key : KeyType) (args : Args) (registry_ : registry) : comp W Ret :=
  match registry_ !! key with
  | None =>
      fun w => (Throw (out_of_range ("Registry key not found: " +:+ std_string key)), w)
  | Some f => invoke f args
  end.

Definition Size (registry_ : registry) : nat := size registry_.

Definition Clear (registry_ : registry) : registry := ∅.

(** [registry_.erase(key) > 0], with the registry it leaves. *)
Definition Unregister (key : KeyType) (registry_ : registry) : bool * registry :=
  (Has key registry_, delete key registry_).

(** The constructor of [Registerer]: registers unless the pointer is null. *)
Definition Registerer (key : KeyType) (registry_ : option registry)
    (method : function W Args Ret) : option registry :=
  match registry_ with
  | Some r => Some (Register key method r)
  | None => None
  end.

(** The legacy [run] (both overloads): as [Run], but the message of the
    exception does not name the key. *)
Definition run (key : KeyType) (args : Args) (registry_ : registry) : comp W Ret :=
  match registry_ !! key with
  | None => fun w => (Throw (out_of_range "Registry key not found"), w)
  | Some f => invoke f args
  end.

(** [Keys]: the keys pushed back by the loop over [registry_]. The order in
    which an [unordered_map] is traversed is unspecified; here it is the
    order in which the map lists its entries. *)
Definition Keys (registry_ : registry) : list KeyType :=
  (map_to_list registry_).*1.

End Registry.
End Registry.

(** ** [creator::Registry<KeyType, ReturnType, Args...>]  (util/registry.h)

    [ReturnType] is a smart pointer ([std::unique_ptr] or [std::shared_ptr] in
    every macro that instantiates the class): [option Obj], with [None] for
    [nullptr]. *)

Module creator.
Section Creator.
Context {KeyType : Type} `{Countable KeyType}.
Context {W Args Obj : Type}.

Abbreviation Function := (function W Args (option Obj)).
Abbreviation registry := (gmap KeyType (function W Args (option Obj))).

Definition Register (key : KeyType) (f : Function) (registry_ : registry) : registry :=
  <[key := f]> registry_.

Definition Has (key : KeyType) (registry_ : registry) : bool :=
  match registry_ !! key with
  | Some _ => true
  | None => false
  end.

Definition Create (key : KeyType) (args : Args) (registry_ : registry)
    : comp W (option Obj) :=
  match registry_ !! key with
  | None => fun w => (Ok None, w)
  | Some f => invoke f args
  end.

(** The legacy interface. *)
Definition run (key : KeyType) (args : Args) (registry_ : registry)
    : comp W (option Obj) :=
  Create key args registry_.

(** [Registerer::DefaultCreator<DerivedType>]:
    [ReturnType(new DerivedType(args...))], the constructor being a
    computation of its own and the conversion to the base an upcast. *)
Definition DefaultCreator {DerivedType : Type}
    (construct : Args -> comp W DerivedType) (upcast : DerivedType -> Obj)
    : Function :=
  target (fun args w =>
    match construct args w with
    | (Ok d, w') => (Ok (Some (upcast d)), w')
    | (Throw e, w') => (Throw e, w')
    end).

Definition Keys (registry_ : registry) : list KeyType :=
  (map_to_list registry_).*1.

Definition Size (registry_ : registry) : nat := size registry_.

Definition Clear (registry_ : registry) : registry := ∅.

(** The constructor of [creator::Registerer]. *)
Definition Registerer (key : KeyType) (registry_ : option registry)
    (method : Function) : option registry :=
  match registry_ with
  | Some r => Some (Register key method r)
  | None => None
  end.

End Creator.
End creator.

(** ** Machine integers

    The conversions between integer types, wrap-around written out
    (C++20: conversions to a signed type are modular as well). *)

Definition int_min : Z := - 2 ^ 31.
Definition int_max : Z := 2 ^ 31 - 1.
Definition uint_max : Z := 2 ^ 32 - 1.
Definition size_t_max : Z := 2 ^ 64 - 1.

(** [static_cast<int>(z)] *)
Definition to_int (z : Z) : Z := (z + 2 ^ 31) mod 2 ^ 32 - 2 ^ 31.

(** [static_cast<unsigned int>(z)] *)
Definition to_unsigned_int (z : Z) : Z := z mod 2 ^ 32.

(** [static_cast<size_t>(z)] *)
Definition to_size_t (z : Z) : Z := z mod 2 ^ 64.

Definition byte_of_Z (z : Z) : byte :=
  match Byte.of_N (Z.to_N (z mod 256)) with
  | Some b => b
  | None => x00
  end.

Definition Z_of_byte (b : byte) : Z := Z.of_N (Byte.to_N b).

(** ** The tree document: [nlohmann::ordered_json]

    The document type is a third-party library; what follows is the part of
    its interface the adapter calls, with the library's documented behaviour.
    An object is an [ordered_map]: a sequence of members in insertion order,
    searched from the front. *)

#[local] Unset Elimination Schemes.
Inductive json : Type :=
| j_null
| j_boolean (b : bool)
| j_number_integer (i : Z)          (* std::int64_t *)
| j_number_unsigned (u : Z)         (* std::uint64_t *)
| j_number_float (d : spec_float)   (* double *)
| j_string (s : string)
| j_binary (b : list byte)
| j_array (elements : list json)
| j_object (members : list (string * json)).
#[local] Set Elimination Schemes.

Definition type_name (j : json) : string :=
  match j with
  | j_null => "null"
  | j_boolean _ => "boolean"
  | j_number_integer _ | j_number_unsigned _ | j_number_float _ => "number"
  | j_string _ => "string"
  | j_binary _ => "binary"
  | j_array _ => "array"
  | j_object _ => "object"
  end.

Definition is_string (j : json) : bool :=
  match j with j_string _ => true | _ => false end.

(** [ordered_map::find] *)
Fixpoint find_member (key : string) (members : list (string * json)) : option json :=
  match members with
  | [] => None
  | (k, v) :: rest => if String.eqb k key then Some v else find_member key rest
  end.

(** [j.contains(key)]: false on everything but an object. *)
Definition contains (j : json) (key : string) : bool :=
  match j with
  | j_object members =>
      match find_member key members with Some _ => true | None => false end
  | _ => false
  end.

(** The member written by [j[key] = v] on an object. *)
Fixpoint assign_member (key : string) (v : json) (members : list (string * json))
    : list (string * json) :=
  match members with
  | [] => [(key, v)]
  | (k, x) :: rest =>
      if String.eqb k key then (k, v) :: rest else (k, x) :: assign_member key v rest
  end.

Definition subscript_error (j : json) : exception :=
  type_error 305 ("cannot use operator[] with a string argument with " +:+ type_name j).

(** [j[key]] on a mutable document: the member referred to and the document
    afterwards. A null document becomes an object, a missing member is
    appended as null, anything but null or an object throws. *)
Definition subscript (j : json) (key : string) : result (json * json) :=
  match j with
  | j_null => Ok (j_null, j_object [(key, j_null)])
  | j_object members =>
      match find_member key members with
      | Some v => Ok (v, j)
      | None => Ok (j_null, j_object (members ++ [(key, j_null)]))
      end
  | _ => Throw (subscript_error j)
  end.

(** [j[key] = v] *)
Definition subscript_assign (j : json) (key : string) (v : json) : result json :=
  match j with
  | j_null => Ok (j_object [(key, v)])
  | j_object members => Ok (j_object (assign_member key v members))
  | _ => Throw (subscript_error j)
  end.

(** [j.get<std::string>()] *)
Definition get_string (j : json) : result string :=
  match j with
  | j_string s => Ok s
  | _ => Throw (type_error 302 ("type must be string, but is " +:+ type_name j))
  end.

(** [static_cast<int>(d)] on a double: truncation towards zero, undefined
    when the truncated value is not an [int]. *)
Definition double_to_int (d : spec_float) : result Z :=
  match d with
  | S754_zero _ => Ok 0
  | S754_finite s m e =>
      let magnitude := Z.shiftl (Z.pos m) e in
      let z := if s then - magnitude else magnitude in
      if (int_min <=? z) && (z <=? int_max) then Ok z else Throw undefined_conversion
  | S754_infinity _ | S754_nan => Throw undefined_conversion
  end.

(** [j.get<int>()]: numbers and booleans convert, the rest throws. *)
Definition get_int (j : json) : result Z :=
  match j with
  | j_number_integer i => Ok (to_int i)
  | j_number_unsigned u => Ok (to_int u)
  | j_number_float d => double_to_int d
  | j_boolean b => Ok (if b then 1 else 0)
  | _ => Throw (type_error 302 ("type must be number, but is " +:+ type_name j))
  end.

(** [static_cast<unsigned int>(d)] on a double: truncation towards zero,
    undefined when the truncated value is not an [unsigned int]. *)
Definition double_to_unsigned (d : spec_float) : result Z :=
  match d with
  | S754_zero _ => Ok 0
  | S754_finite s m e =>
      let magnitude := Z.shiftl (Z.pos m) e in
      let z := if s then - magnitude else magnitude in
      if (0 <=? z) && (z <=? uint_max) then Ok z else Throw undefined_conversion
  | S754_infinity _ | S754_nan => Throw undefined_conversion
  end.

(** [j.get<unsigned int>()] *)
Definition get_unsigned (j : json) : result Z :=
  match j with
  | j_number_integer i => Ok (to_unsigned_int i)
  | j_number_unsigned u => Ok (to_unsigned_int u)
  | j_number_float d => double_to_unsigned d
  | j_boolean b => Ok (if b then 1 else 0)
  | _ => Throw (type_error 302 ("type must be number, but is " +:+ type_name j))
  end.

(** [j.get<bool>()]: nothing converts to a boolean. *)
Definition get_bool (j : json) : result bool :=
  match j with
  | j_boolean b => Ok b
  | _ => Throw (type_error 302 ("type must be boolean, but is " +:+ type_name j))
  end.

(** [j.size()] *)
Definition json_size (j : json) : nat :=
  match j with
  | j_null => 0%nat
  | j_array elements => length elements
  | j_object members => length members
  | _ => 1%nat
  end.

(** ** Enumerations

    What the adapters need of an enum type [E]. The two name helpers are
    declared in [util/string_util.h], which is not part of the sources at
    hand: they are fields of the interface, and nothing is assumed of them. *)

Class EnumType (E : Type) : Type := {
  (** the value of [e] in the underlying type of [E] *)
  underlying_value : E -> Z;
  (** [static_cast<E>(i)] for an [int] [i] *)
  static_cast_enum : Z -> E;
  (** [enum_to_string(e)], the canonical name *)
  enum_to_string : E -> string;
  (** [string_to_enum<E>(str)] *)
  string_to_enum : string -> result E
}.

(** [static_cast<int>(e)] *)
Definition static_cast_int {E : Type} `{EnumType E} (e : E) : Z :=
  to_int (underlying_value e).

Definition to_json {E : Type} `{EnumType E} (archive : json) (e : E) : json :=
  j_string (enum_to_string e).

Definition from_json {E : Type} `{EnumType E} (archive : json) : result E :=
  if is_string archive then
    result_bind (get_string archive) (fun str => string_to_enum str)
  else
    result_bind (get_int archive) (fun i => Ok (static_cast_enum i)).

(** ** Field names and logging *)

Definition CLASS_NAME : string := "Class".
Definition SIZE_NAME : string := "Size".

(** [std::cerr], one entry per line written. *)
Definition ostream : Type := list string.

Definition SERIALIZATION_LOG_WARNING (x : string) (cerr : ostream) : ostream :=
  cerr ++ ["Warning: " +:+ x].

(** ** [archiver_wrapper<json>]

    [push] and [pop] are given per branch of their [if constexpr] chain. *)

Module archiver_wrapper_json.

(** [push<std::monostate>] *)
Definition push_monostate (archive : json) (obj : unit) : json := j_null.

(** [pop<std::monostate>] *)
Definition pop_monostate (archive : json) : unit := tt.

(** [push<T>] for an enum type [T] *)
Definition push_enum {E : Type} `{EnumType E} (archive : json) (obj : E) : json :=
  to_json archive obj.

(** [pop<T>] for an enum type [T] *)
Definition pop_enum {E : Type} `{EnumType E} (archive : json) : result E :=
  from_json archive.

Definition push_class_name (archive : json) (name : string) : result json :=
  subscript_assign archive CLASS_NAME (j_string name).

(** The returned string, the archive afterwards and what [std::cerr] holds. *)
Definition pop_class_name (archive : json) (cerr : ostream)
    : result string * json * ostream :=
  if negb (contains archive CLASS_NAME) then
    (Ok ""%string, archive,
     SERIALIZATION_LOG_WARNING "json does not have a class name field!" cerr)
  else
    match subscript archive CLASS_NAME with
    | Throw e => (Throw e, archive, cerr)
    | Ok (name, archive') =>
        if is_string name then (get_string name, archive', cerr)
        else (Ok ""%string, archive',
              SERIALIZATION_LOG_WARNING "Class name field is not a string!" cerr)
    end.

Definition resize (archive : json) (size : Z) : json := archive.

Definition size (archive : json) : nat := json_size archive.

(** [push<const char*>]: a null pointer is [None]. *)
Definition push_c_str (archive : json) (obj : option string) : json :=
  match obj with
  | None => j_null
  | Some s => j_string s
  end.

(** The last branch of [push], [archive = obj], for [int], [unsigned int],
    [bool] and [std::string]. *)
Definition push_int (archive : json) (obj : Z) : json := j_number_integer obj.

Definition push_unsigned (archive : json) (obj : Z) : json := j_number_unsigned obj.

Definition push_bool (archive : json) (obj : bool) : json := j_boolean obj.

Definition push_string (archive : json) (obj : string) : json := j_string obj.

(** The last branch of [pop], [obj = archive.get<T>()], for the same types. *)
Definition pop_int (archive : json) : result Z := get_int archive.

Definition pop_unsigned (archive : json) : result Z := get_unsigned archive.

Definition pop_bool (archive : json) : result bool := get_bool archive.

Definition pop_string (archive : json) : result string := get_string archive.

(** [idx] is an [unsigned int]. *)
Definition push_index (archive : json) (index_name : string) (idx : Z) : result json :=
  subscript_assign archive index_name (j_number_unsigned idx).

(** The index read, with the archive afterwards: the archive is not const,
    and [archive[index_name]] may have changed it before [get] throws. *)
Definition pop_index (archive : json) (index_name : string) : result Z * json :=
  match subscript archive index_name with
  | Throw e => (Throw e, archive)
  | Ok (field, archive') => (get_unsigned field, archive')
  end.

End archiver_wrapper_json.

(** ** The byte stream: [multi_process_stream] *)

Inductive byte_order : Type := little_endian | big_endian.

Module multi_process_stream.
Section Stream.

(** The byte order of the host; no theorem depends on which one it is. *)
Variable order : byte_order.

(** Modelled from the spec: the class [multi_process_stream] of
    [util/multi_process_stream.h], whose source is not at hand. By the spec a
    stream archive is "a flat, directionally-consumed byte sequence": writes
    append "the typed value's canonical bytes", reads consume them from the
    front, "advancing the cursor". The stream is the sequence of the bytes
    written and not yet read. *)
Definition t : Type := list byte.

(** Modelled from the spec: the [n] low-order bytes of [z], least significant
    first; the representation behind [to_bytes], absent with the class. *)
Fixpoint low_bytes (n : nat) (z : Z) : list byte :=
  match n with
  | O => []
  | S n' => byte_of_Z z :: low_bytes n' (z / 256)
  end.

(** Modelled from the spec: the number that bytes given least significant
    first stand for (the inverse of [low_bytes], absent with the class). *)
Fixpoint low_value (bs : list byte) : Z :=
  match bs with
  | [] => 0
  | b :: bs' => Z_of_byte b + 256 * low_value bs'
  end.

(** Modelled from the spec: the canonical bytes of an integer of [n] bytes
    are its two's complement representation in the byte order of the host. *)
Definition to_bytes (n : nat) (z : Z) : list byte :=
  match order with
  | little_endian => low_bytes n z
  | big_endian => rev (low_bytes n z)
  end.

(** Modelled from the spec: the integer read from its canonical bytes, the
    decoding inside the absent [operator>>]. *)
Definition of_bytes (bs : list byte) : Z :=
  match order with
  | little_endian => low_value bs
  | big_endian => low_value (rev bs)
  end.

(** Modelled from the spec: the absent read primitive, consuming [n] bytes;
    a stream that holds fewer is truncated, which is "a fatal condition" of
    the value codec. *)
Definition consume (n : nat) (s : t) : result (list byte * t) :=
  if (length s <? n)%nat then Throw stream_underflow
  else Ok (take n s, drop n s).

(** Modelled from the spec: the absent [operator<<(unsigned char)], which
    appends the one byte of its argument. *)
Definition insert_uchar (s : t) (c : Z) : t := s ++ to_bytes 1 c.

(** Modelled from the spec: the absent [operator<<(int)], which appends the
    four bytes of its argument ("the 4-byte integer"). *)
Definition insert_int (s : t) (i : Z) : t := s ++ to_bytes 4 i.

(** Modelled from the spec: the absent [operator<<(unsigned int)], four bytes
    as well. *)
Definition insert_uint (s : t) (u : Z) : t := s ++ to_bytes 4 u.

(** Modelled from the spec: the absent [operator>>(unsigned char&)]: the value
    read and the stream that remains. *)
Definition extract_uchar (s : t) : result (Z * t) :=
  result_bind (consume 1 s) (fun '(bs, s') => Ok (of_bytes bs, s')).

(** Modelled from the spec: the absent [operator>>(int&)]; the four bytes are
    read as a signed number. *)
Definition extract_int (s : t) : result (Z * t) :=
  result_bind (consume 4 s) (fun '(bs, s') => Ok (to_int (of_bytes bs), s')).

(** Modelled from the spec: the absent [operator>>(unsigned int&)]. *)
Definition extract_uint (s : t) : result (Z * t) :=
  result_bind (consume 4 s) (fun '(bs, s') => Ok (of_bytes bs, s')).

End Stream.
End multi_process_stream.

(** ** [archiver_wrapper<multi_process_stream>] *)

Module archiver_wrapper_stream.
Section Adapter.
Variable order : byte_order.

Abbreviation stream := multi_process_stream.t.

(** [push<std::monostate>]: the marker byte *)
Definition push_monostate (archive : stream) (obj : unit) : stream :=
  multi_process_stream.insert_uchar order archive 0.

(** [pop<std::monostate>]: the marker is read and dropped *)
Definition pop_monostate (archive : stream) : result (unit * stream) :=
  result_bind (multi_process_stream.extract_uchar order archive)
    (fun '(marker, archive') => Ok (tt, archive')).

(** [push<T>] for an enum type [T] *)
Definition push_enum {E : Type} `{EnumType E} (archive : stream) (obj : E) : stream :=
  multi_process_stream.insert_int order archive (static_cast_int obj).

(** [pop<T>] for an enum type [T] *)
Definition pop_enum {E : Type} `{EnumType E} (archive : stream) : result (E * stream) :=
  result_bind (multi_process_stream.extract_int order archive)
    (fun '(i, archive') => Ok (static_cast_enum i, archive')).

(** [n] is a [size_t]. *)
Definition resize (archive : stream) (n : Z) : stream :=
  multi_process_stream.insert_uint order archive (to_unsigned_int n).

Definition size (archive : stream) : result (Z * stream) :=
  result_bind (multi_process_stream.extract_uint order archive)
    (fun '(n, archive') => Ok (to_size_t n, archive')).

(** [idx] is an [unsigned int]; the name of the field is not used. *)
Definition push_index (archive : stream) (index_name : string) (idx : Z) : stream :=
  multi_process_stream.insert_uint order archive idx.

Definition pop_index (archive : stream) (index_name : string) : result (Z * stream) :=
  multi_process_stream.extract_uint order archive.

End Adapter.
End archiver_wrapper_stream.

(** ** [access::read_binary]

    A file is [Some] of its bytes, or [None] when it cannot be opened. *)

Module access.

(** [in.tellg()] on a stream opened at its end: the size of the file, or
    [pos_type(-1)] when the stream has failed. *)
Definition tellg (file : option (list byte)) : Z :=
  match file with
  | Some contents => Z.of_nat (length contents)
  | None => -1
  end.

(** [std::vector<unsigned char>::max_size()] *)
Definition max_size : Z := 2 ^ 63 - 1.

(** [buffer.resize(n)]: cut down, or filled up with zero bytes. *)
Definition vector_resize (buffer : list byte) (n : Z) : result (list byte) :=
  if max_size <? n then Throw (length_error "vector::_M_default_append")
  else Ok (list.resize (Z.to_nat n) x00 buffer).

(** [in.seekg(0); in.read(buffer.data(), n)]: the bytes read overwrite the
    front of the buffer; a failed stream reads nothing. *)
Definition istream_read (file : option (list byte)) (buffer : list byte) (n : Z)
    : list byte :=
  match file with
  | Some contents =>
      let got := take (Z.to_nat n) contents in
      got ++ drop (length got) buffer
  | None => buffer
  end.

(** The buffer afterwards, with the exception thrown if any. *)
Definition read_binary (file : option (list byte)) (buffer : list byte)
    : result unit * list byte :=
  let size := to_size_t (tellg file) in
  if size =? 0 then (Ok tt, buffer)
  else
    match vector_resize buffer size with
    | Throw e => (Throw e, buffer)
    | Ok buffer' => (Ok tt, istream_read file buffer' (Z.of_nat (length buffer')))
    end.

(** The files that can be opened, by path, with their bytes. *)
Abbreviation file_system := (gmap string (list byte)).



End access.

(** ** Two enum types *)

(** Modelled from the spec: the enum [Color] of the spec's scenario, which no
    source at hand declares; its underlying type is the default, [int]. *)
Record Color : Type := Color_of { Color_value : Z }.

(** Modelled from the spec: the enumerator [Color::Red], "underlying value
    0". *)
Definition Red : Color := Color_of 0.

(** Modelled from the spec: [Color] as an enum type; the canonical name of
    [Red] is "Red". The spec names no other enumerator: a value without one
    is given the empty name, and an unknown name is refused. *)
#[export] Instance Color_enum : EnumType Color := {
  underlying_value := Color_value;
  static_cast_enum := Color_of;
  enum_to_string c := if Color_value c =? 0 then "Red"%string else ""%string;
  string_to_enum str :=
    if String.eqb str "Red" then Ok Red
    else Throw (out_of_range ("no enumerator named " +:+ str))
}.

(** A sample enum type of a wider underlying type,
    [enum class Wide : long long { Big = 4294967296 }]: converting an [int]
    to it changes no value. *)
Record Wide : Type := Wide_of { Wide_value : Z }.

Definition Big : Wide := Wide_of 4294967296.

#[export] Instance Wide_enum : EnumType Wide := {
  underlying_value := Wide_value;
  static_cast_enum := Wide_of;
  enum_to_string w := if Wide_value w =? 4294967296 then "Big"%string else ""%string;
  string_to_enum str :=
    if String.eqb str "Big" then Ok Big
    else Throw (out_of_range ("no enumerator named " +:+ str))
}.

(** ** Sample data

    A registry of callbacks that count their calls in the ambient state, a
    registry of factories, and two tree documents. *)

Definition add_callback (k : Z) : function nat Z Z :=
  target (fun x calls => (Ok (x + k), S calls)).

Definition sample_registry : gmap string (function nat Z Z) :=
  Registry.Register "A"%string (add_callback 1) ∅.

Definition sample_creators : gmap string (function nat Z (option Z)) :=
  creator.Register "Derived"%string
    (creator.DefaultCreator (fun a calls => (Ok (2 * a), S calls)) (fun d => d)) ∅.

Definition sample_document : json :=
  j_object [("Size"%string, j_number_unsigned 2);
            ("Class"%string, j_string "Derived")].

Definition sample_untyped_document : json :=
  j_object [("Class"%string, j_number_integer 7)].

(** * Theorems *)

(** ** Integers and bytes *)

Lemma to_int_in_range (z : Z) :
  int_min <= z <= int_max -> to_int z = z.
Proof.
  unfold int_min, int_max, to_int. intros Hz.
  rewrite Z.mod_small by lia. lia.
Qed.

Lemma to_int_bounds (z : Z) : int_min <= to_int z <= int_max.
Proof.
  unfold int_min, int_max, to_int.
  pose proof (Z.mod_pos_bound (z + 2 ^ 31) (2 ^ 32)). lia.
Qed.

Lemma to_unsigned_int_in_range (z : Z) :
  0 <= z <= uint_max -> to_unsigned_int z = z.
Proof.
  unfold uint_max, to_unsigned_int. intros Hz. apply Z.mod_small. lia.
Qed.

Lemma to_size_t_in_range (z : Z) :
  0 <= z <= size_t_max -> to_size_t z = z.
Proof.
  unfold size_t_max, to_size_t. intros Hz. apply Z.mod_small. lia.
Qed.

Lemma Z_of_byte_of_Z (z : Z) : Z_of_byte (byte_of_Z z) = z mod 256.
Proof.
  unfold Z_of_byte, byte_of_Z.
  pose proof (Z.mod_pos_bound z 256) as Hb.
  destruct (Byte.of_N (Z.to_N (z mod 256))) as [b|] eqn:Hof.
  - apply Byte.to_of_N in Hof. rewrite Hof. apply Z2N.id. lia.
  - apply Byte.of_N_None_iff in Hof. lia.
Qed.

Section StreamFacts.
Variable order : byte_order.

Import multi_process_stream.

Lemma low_bytes_length (n : nat) (z : Z) : length (low_bytes n z) = n.
Proof.
  revert z. induction n as [|n IH]; intros z; simpl; [reflexivity|].
  by rewrite IH.
Qed.

Lemma low_value_low_bytes (n : nat) (z : Z) :
  low_value (low_bytes n z) = z mod 256 ^ Z.of_nat n.
Proof.
  revert z. induction n as [|n IH]; intros z.
  - simpl. by rewrite Z.mod_1_r.
  - cbn [low_bytes low_value]. rewrite IH, Z_of_byte_of_Z.
    rewrite Nat2Z.inj_succ, Z.pow_succ_r by lia.
    symmetry. apply Z.rem_mul_r; [lia|]. apply Z.pow_pos_nonneg; lia.
Qed.

Lemma to_bytes_length (n : nat) (z : Z) : length (to_bytes order n z) = n.
Proof.
  unfold to_bytes. destruct order.
  - apply low_bytes_length.
  - rewrite length_rev. apply low_bytes_length.
Qed.

Lemma of_bytes_to_bytes (n : nat) (z : Z) :
  of_bytes order (to_bytes order n z) = z mod 256 ^ Z.of_nat n.
Proof.
  unfold of_bytes, to_bytes. destruct order.
  - apply low_value_low_bytes.
  - rewrite rev_involutive. apply low_value_low_bytes.
Qed.

Lemma consume_app (n : nat) (bs rest : t) :
  length bs = n -> consume n (bs ++ rest) = Ok (bs, rest).
Proof.
  intros Hn. unfold consume.
  assert (Hlt : (length (bs ++ rest) <? n)%nat = false).
  { apply Nat.ltb_ge. rewrite length_app. lia. }
  rewrite Hlt. subst n. by rewrite take_app_length, drop_app_length.
Qed.

Lemma consume_short (n : nat) (s : t) :
  (length s < n)%nat -> consume n s = Throw stream_underflow.
Proof.
  intros Hn. unfold consume.
  by rewrite (proj2 (Nat.ltb_lt _ _) Hn).
Qed.

Lemma extract_uint_to_bytes (u : Z) (rest : t) :
  extract_uint order (to_bytes order 4 u ++ rest) = Ok (u mod 2 ^ 32, rest).
Proof.
  unfold extract_uint.
  rewrite consume_app by apply to_bytes_length.
  cbn [result_bind]. by rewrite of_bytes_to_bytes.
Qed.

Lemma extract_int_to_bytes (i : Z) (rest : t) :
  extract_int order (to_bytes order 4 i ++ rest) = Ok (to_int (i mod 2 ^ 32), rest).
Proof.
  unfold extract_int.
  rewrite consume_app by apply to_bytes_length.
  cbn [result_bind]. by rewrite of_bytes_to_bytes.
Qed.

Lemma extract_uchar_to_bytes (c : Z) (rest : t) :
  extract_uchar order (to_bytes order 1 c ++ rest) = Ok (c mod 256, rest).
Proof.
  unfold extract_uchar.
  rewrite consume_app by apply to_bytes_length.
  cbn [result_bind]. by rewrite of_bytes_to_bytes.
Qed.

Lemma to_int_mod (z : Z) : to_int (z mod 2 ^ 32) = to_int z.
Proof.
  unfold to_int.
  rewrite <- (Zplus_mod_idemp_l z (2 ^ 31) (2 ^ 32)). reflexivity.
Qed.

End StreamFacts.

(** ** The registries *)

Section RegistryFacts.
Context {KeyType : Type} `{Countable KeyType}.
Context {W Args Ret : Type}.
Variable std_string : KeyType -> string.

Implicit Types (f : function W Args Ret) (r : gmap KeyType (function W Args Ret)).

Lemma Has_true_iff key r :
  Registry.Has key r = true <-> is_Some (r !! key).
Proof.
  unfold Registry.Has. destruct (r !! key) as [g|]; split; intros Hk.
  - by exists g.
  - reflexivity.
  - discriminate.
  - by destruct Hk.
Qed.

Lemma Has_false_iff key r :
  Registry.Has key r = false <-> r !! key = None.
Proof. unfold Registry.Has. destruct (r !! key); split; congruence. Qed.

Lemma Run_Register_same key f args r w :
  Registry.Run std_string key args (Registry.Register key f r) w = invoke f args w.
Proof. unfold Registry.Run, Registry.Register. by rewrite lookup_insert_eq. Qed.

(** C1. Registering [key] twice always yields a registry, in which [Has key]
    holds and [Run key] is the call of the second callback on the given
    arguments. That registry is the one obtained by registering the second
    callback alone: the first callback is stored nowhere in it, and every
    other key is as it was. *)
Theorem Register_last_wins key f1 f2 r :
  Registry.Has key (Registry.Register key f2 (Registry.Register key f1 r)) = true
  /\ (forall args w,
        Registry.Run std_string key args
          (Registry.Register key f2 (Registry.Register key f1 r)) w
        = invoke f2 args w)
  /\ Registry.Register key f2 (Registry.Register key f1 r) !! key = Some f2
  /\ Registry.Register key f2 (Registry.Register key f1 r) = Registry.Register key f2 r
  /\ (forall key', key' <> key ->
        Registry.Register key f2 (Registry.Register key f1 r) !! key' = r !! key').
Proof.
  repeat split.
  - apply Has_true_iff. unfold Registry.Register. rewrite lookup_insert_eq. by eexists.
  - intros args w. apply Run_Register_same.
  - unfold Registry.Register. by rewrite lookup_insert_eq.
  - unfold Registry.Register. apply insert_insert_eq.
  - intros key' Hne. unfold Registry.Register.
    rewrite !lookup_insert_ne by congruence. reflexivity.
Qed.

(** C2. [Run] on a key that is not registered throws [std::out_of_range]
    with a message that ends in that key, and leaves the state the callbacks
    act on as it was, whatever the registry holds: no callback has run. On a
    registered key it is the call of the registered callback on the given
    arguments, result and effects included. *)
Theorem Run_not_found_or_invoke key args r w :
  (Registry.Has key r = false ->
     Registry.Run std_string key args r w
     = (Throw (out_of_range ("Registry key not found: " +:+ std_string key)), w))
  /\ (forall f, r !! key = Some f ->
        Registry.Run std_string key args r w = invoke f args w)
  /\ (forall g, r !! key = Some (target g) ->
        Registry.Run std_string key args r w = g args w)
  /\ (forall g,
        Registry.Run std_string key args (Registry.Register key (target g) r) w
        = g args w).
Proof.
  repeat split.
  - intros Hk. apply Has_false_iff in Hk. unfold Registry.Run. by rewrite Hk.
  - intros f Hk. unfold Registry.Run. by rewrite Hk.
  - intros g Hk. unfold Registry.Run. by rewrite Hk.
  - intros g. apply Run_Register_same.
Qed.

(** An empty [std::function] can be registered; running it throws. *)
Example Run_empty_function key args r w :
  Registry.Run std_string key args (Registry.Register key empty_function r) w
  = (Throw bad_function_call, w).
Proof. apply Run_Register_same. Qed.

End RegistryFacts.

Section CreatorFacts.
Context {KeyType : Type} `{Countable KeyType}.
Context {W Args Obj : Type}.

Implicit Types (r : gmap KeyType (function W Args (option Obj))).

Lemma creator_Has_false_iff key r :
  creator.Has key r = false <-> r !! key = None.
Proof. unfold creator.Has. destruct (r !! key); split; congruence. Qed.

(** C3. [Create] on a key that is not registered returns the null pointer,
    throws nothing and runs no factory. On a registered key it is the call
    of the registered factory on the given arguments; for a factory made by
    [DefaultCreator] that is the newly constructed object, as a pointer to
    its base. *)
Theorem Create_null_or_factory key args r w :
  (creator.Has key r = false -> creator.Create key args r w = (Ok None, w))
  /\ (forall g, r !! key = Some (target g) -> creator.Create key args r w = g args w)
  /\ (forall g, creator.Create key args (creator.Register key (target g) r) w = g args w)
  /\ (forall (DerivedType : Type) (construct : Args -> DerivedType)
        (upcast : DerivedType -> Obj),
        creator.Create key args
          (creator.Register key
             (creator.DefaultCreator (fun a w' => (Ok (construct a), w')) upcast) r) w
        = (Ok (Some (upcast (construct args))), w)).
Proof.
  unfold creator.Create, creator.Register. repeat split.
  - intros Hk. apply creator_Has_false_iff in Hk. by rewrite Hk.
  - intros g Hk. by rewrite Hk.
  - intros g. by rewrite lookup_insert_eq.
  - intros D construct upcast. by rewrite lookup_insert_eq.
Qed.

End CreatorFacts.

Lemma Register_last_wins_witness :
  "B"%string <> "A"%string
  /\ Registry.Register "A"%string (add_callback 2) sample_registry !! "B"%string = None.
Proof.
  split; [discriminate|].
  destruct (Register_last_wins (fun k => k) "A"%string (add_callback 1) (add_callback 2) ∅)
    as (_ & _ & _ & _ & Hother).
  apply (Hother "B"%string). discriminate.
Defined.

Lemma Run_not_found_or_invoke_witness :
  Registry.Has "B"%string sample_registry = false
  /\ Registry.Run (fun k => k) "B"%string 5 sample_registry 0%nat
     = (Throw (out_of_range "Registry key not found: B"), 0%nat)
  /\ Registry.Run (fun k => k) "A"%string 5 sample_registry 0%nat = (Ok 6, 1%nat).
Proof.
  split; [reflexivity|]. split.
  - apply (proj1 (Run_not_found_or_invoke (fun k => k) "B"%string 5 sample_registry 0%nat)).
    reflexivity.
  - apply (proj1 (proj2 (proj2
      (Run_not_found_or_invoke (fun k => k) "A"%string 5 sample_registry 0%nat)))
      (fun x calls => (Ok (x + 1), S calls))).
    reflexivity.
Defined.

Lemma Create_null_or_factory_witness :
  creator.Has "UnknownType"%string sample_creators = false
  /\ creator.Create "UnknownType"%string 7 sample_creators 0%nat = (Ok None, 0%nat).
Proof.
  split; [reflexivity|].
  apply (proj1 (Create_null_or_factory "UnknownType"%string 7 sample_creators 0%nat)).
  reflexivity.
Defined.

(** ** The tree archive *)

Lemma find_member_assign_same key v members :
  find_member key (assign_member key v members) = Some v.
Proof.
  induction members as [|[k x] rest IH]; simpl.
  - by rewrite String.eqb_refl.
  - destruct (String.eqb k key) eqn:Hk; simpl; rewrite Hk; [reflexivity | exact IH].
Qed.

Lemma find_member_assign_other key key' v members :
  key' <> key ->
  find_member key' (assign_member key v members) = find_member key' members.
Proof.
  intros Hne. induction members as [|[k x] rest IH]; simpl.
  - destruct (String.eqb key key') eqn:Hk; [|reflexivity].
    apply String.eqb_eq in Hk. congruence.
  - destruct (String.eqb k key) eqn:Hk; simpl.
    + apply String.eqb_eq in Hk. subst k.
      destruct (String.eqb key key') eqn:Hk'; [|reflexivity].
      apply String.eqb_eq in Hk'. congruence.
    + by rewrite IH.
Qed.

Lemma contains_true_inv archive key :
  contains archive key = true ->
  exists members v, archive = j_object members /\ find_member key members = Some v.
Proof.
  destruct archive as [| | | | | | | |members]; simpl; try discriminate.
  destruct (find_member key members) as [v|] eqn:Hf; [|discriminate].
  intros _. by exists members, v.
Qed.

Lemma pop_class_name_present members v cerr :
  find_member "Class" members = Some v ->
  archiver_wrapper_json.pop_class_name (j_object members) cerr
  = if is_string v then (get_string v, j_object members, cerr)
    else (Ok ""%string, j_object members,
          cerr ++ ["Warning: Class name field is not a string!"%string]).
Proof.
  intros Hf. unfold archiver_wrapper_json.pop_class_name, CLASS_NAME. simpl.
  rewrite Hf. simpl. reflexivity.
Qed.

(** C4. [pop_class_name] returns the string held by the "Class" field. When
    the archive has no such field (it is no object, or an object without
    it), or when the field holds anything but a string, it writes one warning
    to [std::cerr] and returns the empty string. It never throws, and leaves
    the archive as it was. *)
Theorem pop_class_name_total archive cerr :
  (forall members s,
      archive = j_object members ->
      find_member "Class" members = Some (j_string s) ->
      archiver_wrapper_json.pop_class_name archive cerr = (Ok s, archive, cerr))
  /\ (contains archive "Class" = false ->
      archiver_wrapper_json.pop_class_name archive cerr
      = (Ok ""%string, archive,
         cerr ++ ["Warning: json does not have a class name field!"%string]))
  /\ (forall members v,
      archive = j_object members ->
      find_member "Class" members = Some v ->
      is_string v = false ->
      archiver_wrapper_json.pop_class_name archive cerr
      = (Ok ""%string, archive,
         cerr ++ ["Warning: Class name field is not a string!"%string]))
  /\ (exists s cerr',
      archiver_wrapper_json.pop_class_name archive cerr = (Ok s, archive, cerr')).
Proof.
  repeat split.
  - intros members s -> Hf. by rewrite (pop_class_name_present _ _ _ Hf).
  - intros Hc. unfold archiver_wrapper_json.pop_class_name, CLASS_NAME.
    by rewrite Hc.
  - intros members v -> Hf Hv. rewrite (pop_class_name_present _ _ _ Hf). by rewrite Hv.
  - destruct (contains archive "Class") eqn:Hc.
    + apply contains_true_inv in Hc as (members & v & -> & Hf).
      rewrite (pop_class_name_present _ _ _ Hf).
      destruct v; simpl; eauto.
    + unfold archiver_wrapper_json.pop_class_name, CLASS_NAME. rewrite Hc.
      simpl. eauto.
Qed.

(** C8. The two field names are "Class" and "Size". [push_class_name], when
    it does not throw, leaves an object whose "Class" field holds the name
    and whose other fields are those of the archive; [pop_class_name] then
    returns that name without a warning, and its result depends on no field
    but "Class". *)
Theorem class_field_name :
  CLASS_NAME = "Class"%string
  /\ SIZE_NAME = "Size"%string
  /\ (forall archive name archive',
        archiver_wrapper_json.push_class_name archive name = Ok archive' ->
        exists members,
          archive' = j_object members
          /\ find_member "Class" members = Some (j_string name)
          /\ (forall key, key <> "Class"%string ->
                find_member key members
                = match archive with
                  | j_object old => find_member key old
                  | _ => None
                  end))
  /\ (forall archive name archive' cerr,
        archiver_wrapper_json.push_class_name archive name = Ok archive' ->
        archiver_wrapper_json.pop_class_name archive' cerr = (Ok name, archive', cerr))
  /\ (forall members members' cerr,
        find_member "Class" members = find_member "Class" members' ->
        (archiver_wrapper_json.pop_class_name (j_object members) cerr).1.1
        = (archiver_wrapper_json.pop_class_name (j_object members') cerr).1.1).
Proof.
  assert (Hpush : forall archive name archive',
    archiver_wrapper_json.push_class_name archive name = Ok archive' ->
    exists members,
      archive' = j_object members
      /\ find_member "Class" members = Some (j_string name)
      /\ (forall key, key <> "Class"%string ->
            find_member key members
            = match archive with j_object old => find_member key old | _ => None end)).
  { intros archive name archive'.
    unfold archiver_wrapper_json.push_class_name, subscript_assign, CLASS_NAME.
    destruct archive as [| | | | | | | |old]; try discriminate; intros [= <-].
    - exists [("Class"%string, j_string name)]. repeat split.
      intros key Hne. cbn [find_member].
      destruct (String.eqb "Class" key) eqn:Hk; [|reflexivity].
      apply String.eqb_eq in Hk. congruence.
    - exists (assign_member "Class" (j_string name) old). repeat split.
      + apply find_member_assign_same.
      + intros key Hne. by apply find_member_assign_other. }
  split; [reflexivity|]. split; [reflexivity|]. split; [exact Hpush|]. split.
  - intros archive name archive' cerr Hp.
    destruct (Hpush _ _ _ Hp) as (members & -> & Hf & _).
    by rewrite (pop_class_name_present _ _ _ Hf).
  - intros members members' cerr Heq.
    destruct (find_member "Class" members') as [v|] eqn:Hf'.
    + rewrite (pop_class_name_present _ _ _ Heq), (pop_class_name_present _ _ _ Hf').
      by destruct (is_string v).
    + unfold archiver_wrapper_json.pop_class_name, CLASS_NAME. simpl.
      by rewrite Heq, Hf'.
Qed.

Section EnumFacts.
Context {E : Type} `{EnumType E}.

(** C9. [from_json] takes two representations of an enum value: a string is
    handed to [string_to_enum], and anything else is read with [get<int>]
    and cast to the enum type. A document holding an integer therefore loads,
    as the enum value of that integer, and [pop] of the tree adapter is
    [from_json]. *)
Theorem from_json_string_or_int (archive : json) :
  (forall str, archive = j_string str -> from_json archive = string_to_enum str)
  /\ (is_string archive = false ->
      from_json archive = result_bind (get_int archive) (fun i => Ok (static_cast_enum i)))
  /\ (forall i, archive = j_number_integer i ->
      from_json archive = Ok (static_cast_enum (to_int i)))
  /\ (forall u, archive = j_number_unsigned u ->
      from_json archive = Ok (static_cast_enum (to_int u)))
  /\ archiver_wrapper_json.pop_enum archive = from_json archive.
Proof.
  repeat split.
  - by intros str ->.
  - intros Hs. unfold from_json. by rewrite Hs.
  - by intros i ->.
  - by intros u ->.
Qed.

End EnumFacts.

(** Anything that is neither a string nor a number is refused by
    [get<int>]. *)
Example from_json_null_throws :
  from_json (E := Color) j_null
  = Throw (type_error 302 "type must be number, but is null").
Proof. reflexivity. Qed.

Example from_json_to_json_Red (node : json) :
  from_json (to_json node Red) = Ok Red.
Proof. reflexivity. Qed.

(** ** The stream archive *)

Section StreamAdapterFacts.
Variable order : byte_order.

Import multi_process_stream.

Lemma to_bytes_zero (n : nat) : to_bytes order n 0 = replicate n x00.
Proof.
  assert (Hlow : low_bytes n 0 = replicate n x00).
  { induction n as [|n IH]; [reflexivity|]. cbn [low_bytes replicate].
    change (0 / 256) with 0. by rewrite IH. }
  unfold to_bytes. destruct order; rewrite Hlow; [reflexivity|].
  rewrite rev_alt, <- reverse_nil. apply reverse_replicate.
Qed.

Lemma to_int_idempotent (z : Z) : to_int (to_int z) = to_int z.
Proof. apply to_int_in_range, to_int_bounds. Qed.

Lemma extract_int_push_enum {E : Type} `{EnumType E} (e : E) (rest : t) :
  extract_int order (archiver_wrapper_stream.push_enum order [] e ++ rest)
  = Ok (to_int (underlying_value e), rest).
Proof.
  unfold archiver_wrapper_stream.push_enum, insert_int, static_cast_int.
  rewrite app_nil_l, extract_int_to_bytes, to_int_mod. by rewrite to_int_idempotent.
Qed.

(** C5, amended. Pushing an enum value to the tree archive makes the node the
    string of its canonical name. Pushing it to the stream archive appends
    the four bytes of [static_cast<int>] of the value: the [int] read back is
    the underlying value brought into the range of [int], hence the
    underlying value itself whenever that is an [int]. [Color::Red] gives the
    string "Red" and four zero bytes. *)
Theorem push_enum_name_or_int {E : Type} `{EnumType E}
    (node : json) (archive : t) (e : E) :
  archiver_wrapper_json.push_enum node e = j_string (enum_to_string e)
  /\ archiver_wrapper_stream.push_enum order archive e
     = archive ++ to_bytes order 4 (to_int (underlying_value e))
  /\ length (archiver_wrapper_stream.push_enum order archive e) = (length archive + 4)%nat
  /\ extract_int order (archiver_wrapper_stream.push_enum order [] e)
     = Ok (to_int (underlying_value e), [])
  /\ (int_min <= underlying_value e <= int_max ->
      extract_int order (archiver_wrapper_stream.push_enum order [] e)
      = Ok (underlying_value e, []))
  /\ archiver_wrapper_json.push_enum node Red = j_string "Red"
  /\ archiver_wrapper_stream.push_enum order [] Red = [x00; x00; x00; x00].
Proof.
  assert (Hread : extract_int order (archiver_wrapper_stream.push_enum order [] e)
                  = Ok (to_int (underlying_value e), [])).
  { rewrite <- (app_nil_r (archiver_wrapper_stream.push_enum order [] e)).
    apply extract_int_push_enum. }
  repeat split.
  - unfold archiver_wrapper_stream.push_enum, insert_int.
    rewrite length_app, to_bytes_length. reflexivity.
  - exact Hread.
  - intros Hr. rewrite Hread. by rewrite to_int_in_range.
  - unfold archiver_wrapper_stream.push_enum, insert_int, static_cast_int.
    change (to_int (underlying_value Red)) with 0.
    by rewrite to_bytes_zero.
Qed.

(** C6. Saving the unit value makes the tree node null and appends one zero
    byte to the stream. Loading it from the stream takes one byte off the
    front, whatever follows, and yields the unit value; what was saved to an
    empty stream is read back to the end. An empty stream cannot be read. *)
Theorem monostate_one_marker_byte (node : json) (archive : t) :
  archiver_wrapper_json.push_monostate node tt = j_null
  /\ archiver_wrapper_stream.push_monostate order archive tt = archive ++ [x00]
  /\ length (archiver_wrapper_stream.push_monostate order archive tt)
     = S (length archive)
  /\ archiver_wrapper_stream.pop_monostate order
       (archiver_wrapper_stream.push_monostate order [] tt) = Ok (tt, [])
  /\ (forall marker rest,
        archiver_wrapper_stream.pop_monostate order (marker :: rest) = Ok (tt, rest))
  /\ archiver_wrapper_stream.pop_monostate order [] = Throw stream_underflow.
Proof.
  assert (Hpush : forall s, archiver_wrapper_stream.push_monostate order s tt = s ++ [x00]).
  { intros s. unfold archiver_wrapper_stream.push_monostate, insert_uchar.
    by rewrite to_bytes_zero. }
  assert (Hpop : forall marker rest,
    archiver_wrapper_stream.pop_monostate order (marker :: rest) = Ok (tt, rest)).
  { intros marker rest. reflexivity. }
  repeat split.
  - apply Hpush.
  - rewrite Hpush, length_app. simpl. lia.
  - rewrite Hpush. apply Hpop.
Qed.

(** C7, amended. [resize] appends the four bytes of the count converted to
    [unsigned int], that is of [n mod 2^32]; [size], reading them back as the
    next item of the stream, returns [n mod 2^32]. So [size] after
    [resize n] is [n] exactly when [n] is below [2^32]. *)
Theorem size_after_resize (n : Z) (archive rest : t) :
  0 <= n <= size_t_max ->
  archiver_wrapper_stream.resize order archive n
  = archive ++ to_bytes order 4 (n mod 2 ^ 32)
  /\ archiver_wrapper_stream.size order (archiver_wrapper_stream.resize order [] n ++ rest)
     = Ok (n mod 2 ^ 32, rest)
  /\ (archiver_wrapper_stream.size order (archiver_wrapper_stream.resize order [] n ++ rest)
      = Ok (n, rest) <-> n <= uint_max).
Proof.
  intros Hn.
  assert (Hm : 0 <= n mod 2 ^ 32 < 2 ^ 32) by (apply Z.mod_pos_bound; lia).
  assert (Hsize :
    archiver_wrapper_stream.size order (archiver_wrapper_stream.resize order [] n ++ rest)
    = Ok (n mod 2 ^ 32, rest)).
  { unfold archiver_wrapper_stream.size, archiver_wrapper_stream.resize,
      insert_uint, to_unsigned_int.
    rewrite app_nil_l, extract_uint_to_bytes. cbn [result_bind].
    rewrite Z.mod_mod by lia.
    rewrite to_size_t_in_range; [reflexivity|]. unfold size_t_max. lia. }
  split; [reflexivity|]. split; [exact Hsize|].
  rewrite Hsize. unfold uint_max. split.
  - intros [= Heq]. lia.
  - intros Hle. by rewrite Z.mod_small by lia.
Qed.

End StreamAdapterFacts.

(** ** Reading a file *)

Lemma read_binary_contents (contents buffer : list byte) :
  contents <> [] ->
  Z.of_nat (length contents) <= access.max_size ->
  access.read_binary (Some contents) buffer = (Ok tt, contents).
Proof.
  intros Hne Hmax. unfold access.read_binary, access.vector_resize, access.tellg.
  assert (Hlen : (0 < length contents)%nat) by (destruct contents; simpl; [done | lia]).
  unfold access.max_size in Hmax.
  rewrite to_size_t_in_range by (unfold size_t_max; lia).
  destruct (Z.of_nat (length contents) =? 0) eqn:Hz; [lia|].
  destruct (access.max_size <? Z.of_nat (length contents)) eqn:Hm;
    [unfold access.max_size in Hm; lia|].
  unfold access.istream_read.
  rewrite length_resize, !Nat2Z.id, firstn_all.
  rewrite drop_ge by (rewrite length_resize; lia).
  by rewrite app_nil_r.
Qed.

(** A file that cannot be opened makes [tellg] return -1, a size no vector
    can take. *)
Example read_binary_missing_file (buffer : list byte) :
  access.read_binary None buffer
  = (Throw (length_error "vector::_M_default_append"), buffer).
Proof. reflexivity. Qed.

(** C10. When the file opened has size 0, [read_binary] returns without
    throwing and the buffer is the one it was given: neither emptied nor
    resized, with every byte it held. *)
Theorem read_binary_empty_file (file : option (list byte)) (buffer : list byte) :
  access.tellg file = 0 ->
  access.read_binary file buffer = (Ok tt, buffer).
Proof.
  intros Hsize. unfold access.read_binary. by rewrite Hsize.
Qed.

(** ** The theorems at concrete inputs *)

Lemma pop_class_name_total_witness :
  find_member "Class" [("Size"%string, j_number_unsigned 2);
                       ("Class"%string, j_string "Derived")]
  = Some (j_string "Derived")
  /\ archiver_wrapper_json.pop_class_name sample_document []
     = (Ok "Derived"%string, sample_document, [])
  /\ archiver_wrapper_json.pop_class_name (j_array []) []
     = (Ok ""%string, j_array [], ["Warning: json does not have a class name field!"%string])
  /\ archiver_wrapper_json.pop_class_name sample_untyped_document []
     = (Ok ""%string, sample_untyped_document,
        ["Warning: Class name field is not a string!"%string]).
Proof.
  split; [reflexivity|]. split; [|split].
  - apply (proj1 (pop_class_name_total sample_document []) _ "Derived"%string eq_refl).
    reflexivity.
  - apply (proj1 (proj2 (pop_class_name_total (j_array []) []))). reflexivity.
  - apply (proj1 (proj2 (proj2 (pop_class_name_total sample_untyped_document [])))
             _ (j_number_integer 7) eq_refl); reflexivity.
Defined.

Lemma class_field_name_witness :
  archiver_wrapper_json.push_class_name j_null "Derived"
  = Ok (j_object [("Class"%string, j_string "Derived")])
  /\ archiver_wrapper_json.pop_class_name
       (j_object [("Class"%string, j_string "Derived")]) []
     = (Ok "Derived"%string, j_object [("Class"%string, j_string "Derived")], []).
Proof.
  split; [reflexivity|].
  destruct class_field_name as (_ & _ & _ & Hpop & _).
  apply (Hpop j_null). reflexivity.
Defined.

Lemma from_json_string_or_int_witness :
  is_string (j_number_integer 0) = false
  /\ from_json (j_number_integer 0) = Ok Red
  /\ from_json (j_string "Red") = Ok Red.
Proof.
  split; [reflexivity|]. split.
  - change Red with (static_cast_enum (E := Color) (to_int 0)).
    apply (proj1 (proj2 (proj2 (from_json_string_or_int (E := Color) (j_number_integer 0))))
             0 eq_refl).
  - change (Ok Red) with (string_to_enum (E := Color) "Red").
    apply (proj1 (from_json_string_or_int (E := Color) (j_string "Red")) "Red"%string eq_refl).
Defined.

Lemma push_enum_name_or_int_witness :
  int_min <= underlying_value Red <= int_max
  /\ multi_process_stream.extract_int big_endian
       (archiver_wrapper_stream.push_enum big_endian [] Red)
     = Ok (0, []).
Proof.
  assert (Hr : int_min <= underlying_value Red <= int_max).
  { unfold int_min, int_max. simpl. lia. }
  split; [exact Hr|].
  destruct (push_enum_name_or_int big_endian j_null [] Red) as (_ & _ & _ & _ & Hin & _).
  apply Hin. exact Hr.
Defined.

(** C5 as stated fails: the value [Big] of an enum of a 64-bit underlying
    type is saved as the four bytes of the [int] 0, not as its underlying
    value 4294967296, and loads back as another value of the enum. *)
Lemma push_enum_wide_counterexample :
  underlying_value Big = 4294967296
  /\ archiver_wrapper_stream.push_enum little_endian [] Big = [x00; x00; x00; x00]
  /\ multi_process_stream.extract_int little_endian
       (archiver_wrapper_stream.push_enum little_endian [] Big)
     = Ok (0, [])
  /\ multi_process_stream.extract_int little_endian
       (archiver_wrapper_stream.push_enum little_endian [] Big)
     <> Ok (underlying_value Big, [])
  /\ archiver_wrapper_stream.pop_enum little_endian
       (archiver_wrapper_stream.push_enum little_endian [] Big)
     = Ok (Wide_of 0, []).
Proof. repeat split. vm_compute. discriminate. Qed.

Lemma size_after_resize_witness :
  0 <= 3 <= size_t_max
  /\ archiver_wrapper_stream.size little_endian
       (archiver_wrapper_stream.resize little_endian [] 3 ++ [x01; x02; x03])
     = Ok (3, [x01; x02; x03]).
Proof.
  assert (Hr : 0 <= 3 <= size_t_max) by (unfold size_t_max; lia).
  split; [exact Hr|].
  apply (proj2 (proj2 (size_after_resize little_endian 3 [] [x01; x02; x03] Hr))).
  unfold uint_max. lia.
Defined.

(** C7 as stated fails: the count 4294967296 is a [size_t], [resize] appends
    the four bytes of 0 for it, and [size] returns 0. *)
Lemma size_after_resize_counterexample :
  0 <= 4294967296 <= size_t_max
  /\ archiver_wrapper_stream.resize little_endian [] 4294967296 = [x00; x00; x00; x00]
  /\ archiver_wrapper_stream.size little_endian
       (archiver_wrapper_stream.resize little_endian [] 4294967296)
     = Ok (0, [])
  /\ archiver_wrapper_stream.size little_endian
       (archiver_wrapper_stream.resize little_endian [] 4294967296)
     <> Ok (4294967296, []).
Proof.
  split; [unfold size_t_max; lia|]. repeat split. vm_compute. discriminate.
Qed.

Lemma read_binary_empty_file_witness :
  access.tellg (Some []) = 0
  /\ access.read_binary (Some []) [x01; x02] = (Ok tt, [x01; x02]).
Proof.
  split; [reflexivity|].
  apply (read_binary_empty_file (Some []) [x01; x02]). reflexivity.
Defined.

(** * Further properties of the registries *)

Section RegistryMore.
Context {KeyType : Type} `{Countable KeyType}.
Context {W Args Ret : Type}.
Variable std_string : KeyType -> string.

Implicit Types (f : function W Args Ret) (r : gmap KeyType (function W Args Ret)).

(** X1. After [Unregister key] the key is gone: [Has] is false and [Run]
    throws; every other key keeps its callback. When the call reports
    [false] the registry is the one it was, and when it reports [true] the
    registry holds one entry less. *)
Theorem Unregister_removes key args r w :
  Registry.Has key (Registry.Unregister key r).2 = false
  /\ Registry.Run std_string key args (Registry.Unregister key r).2 w
     = (Throw (out_of_range ("Registry key not found: " +:+ std_string key)), w)
  /\ (forall key', key' <> key -> (Registry.Unregister key r).2 !! key' = r !! key')
  /\ ((Registry.Unregister key r).1 = false -> (Registry.Unregister key r).2 = r)
  /\ ((Registry.Unregister key r).1 = true ->
      S (Registry.Size (Registry.Unregister key r).2) = Registry.Size r).
Proof.
  unfold Registry.Unregister. cbn [fst snd].
  assert (Hgone : delete key r !! key = None) by apply lookup_delete_eq.
  repeat split.
  - by apply Has_false_iff.
  - unfold Registry.Run. by rewrite Hgone.
  - intros key' Hne. by apply lookup_delete_ne.
  - intros Hk. apply Has_false_iff in Hk. by apply delete_id.
  - intros Hk. apply Has_true_iff in Hk as [f Hf]. unfold Registry.Size.
    rewrite map_size_delete, Hf. cbn.
    assert (size r <> 0%nat); [|lia].
    intros Hz. apply map_size_empty_inv in Hz. subst r.
    by rewrite lookup_empty in Hf.
Qed.

(** X2. Registering a key that was not registered and unregistering it gives
    back the registry as it was, and [Unregister] reports that it found the
    key. *)
Theorem Unregister_Register_fresh key f r :
  Registry.Has key r = false ->
  Registry.Unregister key (Registry.Register key f r) = (true, r).
Proof.
  intros Hk. apply Has_false_iff in Hk.
  unfold Registry.Unregister, Registry.Register, Registry.Has.
  rewrite lookup_insert_eq. f_equal. by apply delete_insert_id.
Qed.

(** X3. [Size] counts keys, not registrations: registering a new key adds
    one, registering a key again adds nothing; after [Clear] the size is 0
    and no key is registered. *)
Theorem Size_counts_keys key f r :
  Registry.Size (Registry.Register key f r)
  = (if Registry.Has key r then Registry.Size r else S (Registry.Size r))
  /\ Registry.Size (Registry.Register key f (Registry.Register key f r))
     = Registry.Size (Registry.Register key f r)
  /\ Registry.Size (Registry.Clear r) = 0%nat
  /\ (forall key', Registry.Has key' (Registry.Clear r) = false).
Proof.
  unfold Registry.Size, Registry.Register, Registry.Has, Registry.Clear.
  repeat split.
  - rewrite map_size_insert. by destruct (r !! key).
  - by rewrite insert_insert_eq.
Qed.

(** X4. [Keys] is a snapshot of the registered keys: a key is in it exactly
    when [Has] holds, no key is listed twice, and there are [Size] of them. *)
Theorem Keys_snapshot r :
  (forall key, key ∈ Registry.Keys r <-> Registry.Has key r = true)
  /\ NoDup (Registry.Keys r)
  /\ length (Registry.Keys r) = Registry.Size r.
Proof.
  unfold Registry.Keys, Registry.Size. repeat split.
  - intros Hin. apply Has_true_iff.
    apply list_elem_of_fmap in Hin as ([k f] & -> & Hin).
    apply elem_of_map_to_list in Hin. by exists f.
  - intros Hk. apply Has_true_iff in Hk as [f Hf].
    apply list_elem_of_fmap. exists (key, f). split; [reflexivity|].
    by apply elem_of_map_to_list.
  - apply NoDup_fst_map_to_list.
  - rewrite length_fmap. apply length_map_to_list.
Qed.

(** X5. Registrations of different keys commute, directly and through
    [Registerer]: the registry built at start-up does not depend on the order
    in which the registration sites run. A [Registerer] given a null registry
    does nothing. *)
Theorem Register_order_independent key1 key2 f1 f2 r :
  key1 <> key2 ->
  Registry.Register key1 f1 (Registry.Register key2 f2 r)
  = Registry.Register key2 f2 (Registry.Register key1 f1 r)
  /\ Registry.Registerer key1 (Registry.Registerer key2 (Some r) f2) f1
     = Registry.Registerer key2 (Registry.Registerer key1 (Some r) f1) f2
  /\ Registry.Registerer key1 (Registry.Registerer key2 None f2) f1 = None.
Proof.
  intros Hne.
  assert (Hc : Registry.Register key1 f1 (Registry.Register key2 f2 r)
               = Registry.Register key2 f2 (Registry.Register key1 f1 r)).
  { unfold Registry.Register. by apply insert_insert_ne. }
  split; [exact Hc|]. split; [|reflexivity].
  cbn [Registry.Registerer]. by rewrite Hc.
Qed.

(** X6. The legacy [run] calls the same callback as [Run] on a registered
    key. On a key that is not registered it throws [std::out_of_range] too,
    with a message that does not name the key, and runs nothing. *)
Theorem run_agrees_with_Run key args r w :
  (Registry.Has key r = true ->
     Registry.run key args r w = Registry.Run std_string key args r w)
  /\ (Registry.Has key r = false ->
     Registry.run key args r w = (Throw (out_of_range "Registry key not found"), w))
  /\ (forall f, Registry.run key args (Registry.Register key f r) w = invoke f args w).
Proof.
  unfold Registry.run, Registry.Run. repeat split.
  - intros Hk. apply Has_true_iff in Hk as [f Hf]. by rewrite Hf.
  - intros Hk. apply Has_false_iff in Hk. by rewrite Hk.
  - intros f. unfold Registry.Register. by rewrite lookup_insert_eq.
Qed.

End RegistryMore.

Section CreatorMore.
Context {KeyType : Type} `{Countable KeyType}.
Context {W Args Obj : Type}.

Implicit Types (r : gmap KeyType (function W Args (option Obj))).

(** X7. In the creator registry too the last registration of a key wins:
    [Create] calls the second factory, and the registry is the one with the
    second registration alone. After [Clear], [Create] returns the null
    pointer for every key. *)
Theorem creator_Register_last_wins key f1 g2 args r w :
  creator.Create key args
    (creator.Register key (target g2) (creator.Register key f1 r)) w
  = g2 args w
  /\ creator.Register key (target g2) (creator.Register key f1 r)
     = creator.Register key (target g2) r
  /\ creator.Has key (creator.Register key (target g2) (creator.Register key f1 r)) = true
  /\ (forall key', creator.Create key' args (creator.Clear r) w = (Ok None, w))
  /\ creator.Size (creator.Clear r) = 0%nat.
Proof.
  unfold creator.Create, creator.Register, creator.Has, creator.Clear, creator.Size.
  repeat split.
  - by rewrite lookup_insert_eq.
  - apply insert_insert_eq.
  - by rewrite lookup_insert_eq.
Qed.

End CreatorMore.

(** * Further properties of the tree archive *)

Lemma subscript_assign_inv archive key v archive' :
  subscript_assign archive key v = Ok archive' ->
  exists members,
    archive' = j_object members
    /\ find_member key members = Some v
    /\ (forall key', key' <> key ->
          find_member key' members
          = match archive with
            | j_object old => find_member key' old
            | _ => None
            end).
Proof.
  unfold subscript_assign.
  destruct archive as [| | | | | | | |old]; try discriminate; intros [= <-].
  - exists [(key, v)]. cbn [find_member]. rewrite String.eqb_refl.
    repeat split. intros key' Hne.
    destruct (String.eqb key key') eqn:Hk; [|reflexivity].
    apply String.eqb_eq in Hk. congruence.
  - exists (assign_member key v old). repeat split.
    + apply find_member_assign_same.
    + intros key' Hne. by apply find_member_assign_other.
Qed.

Lemma subscript_assign_ok_iff archive key v :
  (exists archive', subscript_assign archive key v = Ok archive')
  <-> archive = j_null \/ exists members, archive = j_object members.
Proof.
  split.
  - intros [archive' Ha]. destruct archive; try discriminate; eauto.
  - intros [-> | [members ->]]; cbn; eauto.
Qed.

Lemma pop_index_present members name v :
  find_member name members = Some v ->
  archiver_wrapper_json.pop_index (j_object members) name
  = (get_unsigned v, j_object members).
Proof.
  intros Hf. unfold archiver_wrapper_json.pop_index, subscript. by rewrite Hf.
Qed.

Lemma assign_member_length key v members :
  length (assign_member key v members)
  = match find_member key members with
    | Some _ => length members
    | None => S (length members)
    end.
Proof.
  induction members as [|[k x] rest IH]; [reflexivity|].
  cbn [assign_member find_member].
  destruct (String.eqb k key); [reflexivity|].
  cbn [length]. rewrite IH. by destruct (find_member key rest).
Qed.

(** X8. In the tree archive an index that was pushed under a field name is
    popped again under that name, and the pop leaves the archive as it is.
    [push_index] succeeds exactly on a null node and on an object; on any
    other node it throws. *)
Theorem tree_index_round_trip archive index_name idx :
  0 <= idx <= uint_max ->
  (forall archive',
      archiver_wrapper_json.push_index archive index_name idx = Ok archive' ->
      archiver_wrapper_json.pop_index archive' index_name = (Ok idx, archive'))
  /\ ((exists archive', archiver_wrapper_json.push_index archive index_name idx = Ok archive')
      <-> archive = j_null \/ exists members, archive = j_object members).
Proof.
  intros Hidx. split.
  - intros archive' Hp.
    apply subscript_assign_inv in Hp as (members & -> & Hf & _).
    rewrite (pop_index_present _ _ _ Hf). cbn [get_unsigned].
    by rewrite to_unsigned_int_in_range.
  - apply subscript_assign_ok_iff.
Qed.

(** X9. Popping an index whose field the object does not have throws the
    type error of a null value, and the read has changed the archive: the
    object now has that field, holding null, as its last member. *)
Theorem tree_pop_index_missing_field members index_name :
  find_member index_name members = None ->
  archiver_wrapper_json.pop_index (j_object members) index_name
  = (Throw (type_error 302 "type must be number, but is null"),
     j_object (members ++ [(index_name, j_null)]))
  /\ contains (j_object (members ++ [(index_name, j_null)])) index_name = true
  /\ archiver_wrapper_json.size (j_object (members ++ [(index_name, j_null)]))
     = S (archiver_wrapper_json.size (j_object members)).
Proof.
  intros Hf. split; [|split].
  - unfold archiver_wrapper_json.pop_index, subscript. by rewrite Hf.
  - cbn [contains].
    assert (Hfound : find_member index_name (members ++ [(index_name, j_null)])
                     = Some j_null).
    { induction members as [|[k x] rest IH]; cbn [app find_member] in *.
      - by rewrite String.eqb_refl.
      - destruct (String.eqb k index_name); [discriminate | by apply IH]. }
    by rewrite Hfound.
  - unfold archiver_wrapper_json.size, json_size. rewrite length_app. cbn. lia.
Qed.

(** X10. The class name and an index live in different fields of one node:
    after [push_class_name], [push_index] under any other field name
    succeeds, and then both are read back, neither read changing the archive
    or writing a warning. *)
Theorem tree_class_name_and_index archive name index_name idx cerr a1 :
  index_name <> "Class"%string ->
  0 <= idx <= uint_max ->
  archiver_wrapper_json.push_class_name archive name = Ok a1 ->
  exists a2,
    archiver_wrapper_json.push_index a1 index_name idx = Ok a2
    /\ archiver_wrapper_json.pop_class_name a2 cerr = (Ok name, a2, cerr)
    /\ archiver_wrapper_json.pop_index a2 index_name = (Ok idx, a2).
Proof.
  intros Hne Hidx Hp.
  apply subscript_assign_inv in Hp as (members & -> & Hclass & _).
  exists (j_object (assign_member index_name (j_number_unsigned idx) members)).
  split; [reflexivity|]. split.
  - rewrite (pop_class_name_present _ (j_string name)); [reflexivity|].
    rewrite find_member_assign_other by congruence. exact Hclass.
  - rewrite (pop_index_present _ _ (j_number_unsigned idx)).
    + cbn [get_unsigned]. by rewrite to_unsigned_int_in_range.
    + apply find_member_assign_same.
Qed.


(** X12. What the tree archive is given for an [int], an [unsigned int], a
    [bool] or a [std::string] it gives back; a node written as one kind is
    refused when it is read as a string or as a boolean of another kind. *)
Theorem tree_scalar_round_trip (node : json) (i u : Z) (b : bool) (s : string) :
  int_min <= i <= int_max ->
  0 <= u <= uint_max ->
  archiver_wrapper_json.pop_int (archiver_wrapper_json.push_int node i) = Ok i
  /\ archiver_wrapper_json.pop_unsigned (archiver_wrapper_json.push_unsigned node u) = Ok u
  /\ archiver_wrapper_json.pop_bool (archiver_wrapper_json.push_bool node b) = Ok b
  /\ archiver_wrapper_json.pop_string (archiver_wrapper_json.push_string node s) = Ok s
  /\ archiver_wrapper_json.pop_string (archiver_wrapper_json.push_int node i)
     = Throw (type_error 302 "type must be string, but is number")
  /\ archiver_wrapper_json.pop_bool (archiver_wrapper_json.push_int node i)
     = Throw (type_error 302 "type must be boolean, but is number").
Proof.
  intros Hi Hu.
  unfold archiver_wrapper_json.pop_int, archiver_wrapper_json.push_int,
    archiver_wrapper_json.pop_unsigned, archiver_wrapper_json.push_unsigned.
  cbn [get_int get_unsigned].
  rewrite to_int_in_range, to_unsigned_int_in_range by assumption.
  repeat split.
Qed.

(** X13. A [const char*] can be written but has no reader of its own: read
    as a [std::string], a non-null pointer gives its text back, and the null
    pointer, written as null, is refused. *)
Theorem tree_c_str_one_way (node : json) (obj : option string) :
  (forall s, obj = Some s ->
     archiver_wrapper_json.pop_string (archiver_wrapper_json.push_c_str node obj) = Ok s)
  /\ (obj = None ->
      archiver_wrapper_json.push_c_str node obj = j_null
      /\ archiver_wrapper_json.pop_string (archiver_wrapper_json.push_c_str node obj)
         = Throw (type_error 302 "type must be string, but is null")).
Proof.
  split.
  - by intros s ->.
  - by intros ->.
Qed.

(** * Further properties of the stream archive *)

Section StreamAdapterMore.
Variable order : byte_order.

Import multi_process_stream.

Lemma size_resize_app (n : Z) (rest : t) :
  archiver_wrapper_stream.size order (archiver_wrapper_stream.resize order [] n ++ rest)
  = Ok (n mod 2 ^ 32, rest).
Proof.
  unfold archiver_wrapper_stream.size, archiver_wrapper_stream.resize,
    insert_uint, to_unsigned_int.
  rewrite app_nil_l, extract_uint_to_bytes. cbn [result_bind].
  rewrite Z.mod_mod by lia.
  assert (Hm : 0 <= n mod 2 ^ 32 < 2 ^ 32) by (apply Z.mod_pos_bound; lia).
  rewrite to_size_t_in_range; [reflexivity|]. unfold size_t_max. lia.
Qed.

Lemma pop_enum_push_enum_app {E : Type} `{EnumType E} (e : E) (rest : t) :
  archiver_wrapper_stream.pop_enum order
    (archiver_wrapper_stream.push_enum order [] e ++ rest)
  = Ok (static_cast_enum (to_int (underlying_value e)), rest).
Proof.
  unfold archiver_wrapper_stream.pop_enum.
  by rewrite extract_int_push_enum.
Qed.

(** X14. An enum value saved to the stream is loaded again, with the rest of
    the stream left for the next read, when its underlying value is an
    [int] and the cast from that [int] gives the value back. *)
Theorem stream_enum_round_trip {E : Type} `{EnumType E} (e : E) (rest : t) :
  int_min <= underlying_value e <= int_max ->
  static_cast_enum (underlying_value e) = e ->
  archiver_wrapper_stream.pop_enum order
    (archiver_wrapper_stream.push_enum order [] e ++ rest)
  = Ok (e, rest).
Proof.
  intros Hr Hcast. rewrite pop_enum_push_enum_app.
  by rewrite to_int_in_range, Hcast.
Qed.

(** X15. In the stream archive the field name of an index plays no part: the
    bytes appended are the same under any name, and the index is read back
    under any name, with the rest of the stream left for the next read. *)
Theorem stream_index_round_trip (archive rest : t) (name name' : string) (idx : Z) :
  0 <= idx <= uint_max ->
  archiver_wrapper_stream.push_index order archive name idx
  = archiver_wrapper_stream.push_index order archive name' idx
  /\ length (archiver_wrapper_stream.push_index order archive name idx)
     = (length archive + 4)%nat
  /\ archiver_wrapper_stream.pop_index order
       (archiver_wrapper_stream.push_index order [] name idx ++ rest) name'
     = Ok (idx, rest).
Proof.
  intros Hidx. split; [reflexivity|]. split.
  - unfold archiver_wrapper_stream.push_index, insert_uint.
    by rewrite length_app, to_bytes_length.
  - unfold archiver_wrapper_stream.pop_index, archiver_wrapper_stream.push_index,
      insert_uint.
    rewrite app_nil_l, extract_uint_to_bytes.
    rewrite Z.mod_small; [reflexivity|]. unfold uint_max in Hidx. lia.
Qed.

(** X16. The stream gives values back in the order they were written: after
    [resize], a push of an enum value and a push of the unit value on an
    empty stream, [size], the pop of the enum and the pop of the unit value
    succeed in that order, return what was written and leave the stream
    empty. *)
Theorem stream_reads_in_order {E : Type} `{EnumType E} (n : Z) (e : E) :
  0 <= n <= uint_max ->
  int_min <= underlying_value e <= int_max ->
  static_cast_enum (underlying_value e) = e ->
  exists s1 s2,
    archiver_wrapper_stream.size order
      (archiver_wrapper_stream.push_monostate order
         (archiver_wrapper_stream.push_enum order
            (archiver_wrapper_stream.resize order [] n) e) tt)
    = Ok (n, s1)
    /\ archiver_wrapper_stream.pop_enum order s1 = Ok (e, s2)
    /\ archiver_wrapper_stream.pop_monostate order s2 = Ok (tt, []).
Proof.
  intros Hn Hr Hcast.
  exists (archiver_wrapper_stream.push_enum order [] e ++ [x00]), [x00].
  split; [|split].
  - assert (Hshape :
      archiver_wrapper_stream.push_monostate order
        (archiver_wrapper_stream.push_enum order
           (archiver_wrapper_stream.resize order [] n) e) tt
      = archiver_wrapper_stream.resize order [] n
        ++ (archiver_wrapper_stream.push_enum order [] e ++ [x00])).
    { unfold archiver_wrapper_stream.push_monostate, insert_uchar,
        archiver_wrapper_stream.push_enum, insert_int.
      rewrite to_bytes_zero. cbn [replicate].
      by rewrite app_nil_l, <- app_assoc. }
    rewrite Hshape, size_resize_app.
    rewrite Z.mod_small; [reflexivity|]. unfold uint_max in Hn. lia.
  - rewrite pop_enum_push_enum_app. by rewrite to_int_in_range, Hcast.
  - reflexivity.
Qed.

End StreamAdapterMore.

(** * Further properties of the file access *)

(** X17. Reading a file that is not empty replaces the buffer by the bytes
    of the file, whatever the buffer held and however long it was. *)
Theorem read_binary_replaces_buffer (contents buffer : list byte) :
  contents <> [] ->
  Z.of_nat (length contents) <= access.max_size ->
  access.read_binary (Some contents) buffer = (Ok tt, contents)
  /\ access.read_binary (Some contents) [] = access.read_binary (Some contents) buffer.
Proof.
  intros Hne Hmax. by rewrite !read_binary_contents.
Qed.


(** X19. A file that cannot be opened is not reported as such: [tellg]
    returns -1, the size becomes the largest [size_t], and the resize of the
    buffer throws [std::length_error]; the buffer is left as it was. *)
Theorem read_binary_unopened (file : option (list byte)) (buffer : list byte) :
  access.tellg file = -1 ->
  to_size_t (access.tellg file) = size_t_max
  /\ exists what,
       access.read_binary file buffer = (Throw (length_error what), buffer).
Proof.
  intros Ht. destruct file as [contents|]; [cbn in Ht; lia|].
  split; [reflexivity|]. by eexists.
Qed.

(** * Further properties of the creator registry and of the class name *)

Section CreatorKeys.
Context {KeyType : Type} `{Countable KeyType}.
Context {W Args Obj : Type}.

Implicit Types (r : gmap KeyType (function W Args (option Obj))).

(** X20. [Keys] of the creator registry lists each registered key once, and
    tells what [Create] can build: for a key that is not listed [Create]
    returns the null pointer. *)
Theorem creator_Keys_snapshot r :
  (forall key, key ∈ creator.Keys r <-> creator.Has key r = true)
  /\ NoDup (creator.Keys r)
  /\ length (creator.Keys r) = creator.Size r
  /\ (forall key args w, key ∉ creator.Keys r -> creator.Create key args r w = (Ok None, w)).
Proof.
  assert (Hin : forall key, key ∈ creator.Keys r <-> is_Some (r !! key)).
  { intros key. unfold creator.Keys. split.
    - intros Hk. apply list_elem_of_fmap in Hk as ([k f] & -> & Hk).
      apply elem_of_map_to_list in Hk. by exists f.
    - intros [f Hf]. apply list_elem_of_fmap. exists (key, f).
      split; [reflexivity|]. by apply elem_of_map_to_list. }
  split; [|split; [|split]].
  - intros key. rewrite Hin. unfold creator.Has.
    destruct (r !! key) as [f|]; split; intros Hk.
    + reflexivity.
    + by exists f.
    + by destruct Hk.
    + discriminate.
  - apply NoDup_fst_map_to_list.
  - unfold creator.Keys, creator.Size. rewrite length_fmap. apply length_map_to_list.
  - intros key args w Hk. unfold creator.Create.
    destruct (r !! key) as [f|] eqn:Hf; [|reflexivity].
    exfalso. apply Hk, Hin. by exists f.
Qed.

(** X21. A factory made by [DefaultCreator] never yields the null pointer:
    [Create] on its key returns an object or throws what the constructor
    threw, with the state the constructor left. A null pointer from [Create]
    on such a registry therefore means that the key is not registered. *)
Theorem DefaultCreator_never_null {DerivedType : Type} key args r w
    (construct : Args -> comp W DerivedType) (upcast : DerivedType -> Obj) :
  (exists d,
      construct args w = (Ok d, (construct args w).2)
      /\ creator.Create key args
           (creator.Register key (creator.DefaultCreator construct upcast) r) w
         = (Ok (Some (upcast d)), (construct args w).2))
  \/ (exists e,
      construct args w = (Throw e, (construct args w).2)
      /\ creator.Create key args
           (creator.Register key (creator.DefaultCreator construct upcast) r) w
         = (Throw e, (construct args w).2)).
Proof.
  unfold creator.Create, creator.Register. rewrite lookup_insert_eq.
  cbn [invoke creator.DefaultCreator].
  destruct (construct args w) as [[d|e] w'].
  - left. by exists d.
  - right. by exists e.
Qed.

End CreatorKeys.

(** X22. Writing the class name again overwrites it: the second
    [push_class_name] succeeds, the name read back is the second one, and
    the node has as many children as after the first. *)
Theorem push_class_name_overwrites archive name1 name2 a1 cerr :
  archiver_wrapper_json.push_class_name archive name1 = Ok a1 ->
  exists a2,
    archiver_wrapper_json.push_class_name a1 name2 = Ok a2
    /\ archiver_wrapper_json.pop_class_name a2 cerr = (Ok name2, a2, cerr)
    /\ archiver_wrapper_json.size a2 = archiver_wrapper_json.size a1.
Proof.
  intros Hp. apply subscript_assign_inv in Hp as (members & -> & Hf & _).
  exists (j_object (assign_member CLASS_NAME (j_string name2) members)).
  split; [reflexivity|]. split.
  - rewrite (pop_class_name_present _ (j_string name2)); [reflexivity|].
    apply find_member_assign_same.
  - unfold archiver_wrapper_json.size. cbn [json_size].
    by rewrite assign_member_length, Hf.
Qed.

(** * The further properties at concrete inputs *)

Lemma Unregister_removes_witness :
  (Registry.Unregister "A"%string sample_registry).1 = true
  /\ S (Registry.Size (Registry.Unregister "A"%string sample_registry).2)
     = Registry.Size sample_registry.
Proof.
  split; [reflexivity|].
  destruct (Unregister_removes (fun k => k) "A"%string 5 sample_registry 0%nat)
    as (_ & _ & _ & _ & Hsize).
  apply Hsize. reflexivity.
Defined.

Lemma Unregister_Register_fresh_witness :
  Registry.Has "B"%string sample_registry = false
  /\ Registry.Unregister "B"%string
       (Registry.Register "B"%string (add_callback 2) sample_registry)
     = (true, sample_registry).
Proof.
  split; [reflexivity|].
  apply (Unregister_Register_fresh "B"%string (add_callback 2) sample_registry).
  reflexivity.
Defined.

Lemma Keys_snapshot_witness :
  Registry.Has "A"%string sample_registry = true
  /\ "A"%string ∈ Registry.Keys sample_registry.
Proof.
  split; [reflexivity|].
  apply (proj2 (proj1 (Keys_snapshot sample_registry) "A"%string)). reflexivity.
Defined.

Lemma Register_order_independent_witness :
  "A"%string <> "B"%string
  /\ Registry.Register "A"%string (add_callback 1)
       (Registry.Register "B"%string (add_callback 2) ∅)
     = Registry.Register "B"%string (add_callback 2)
         (Registry.Register "A"%string (add_callback 1) ∅).
Proof.
  assert (Hne : "A"%string <> "B"%string) by discriminate.
  split; [exact Hne|].
  apply (proj1 (Register_order_independent "A"%string "B"%string
                  (add_callback 1) (add_callback 2) ∅ Hne)).
Defined.

Lemma run_agrees_with_Run_witness :
  Registry.Has "A"%string sample_registry = true
  /\ Registry.run "A"%string 5 sample_registry 0%nat
     = Registry.Run (fun k => k) "A"%string 5 sample_registry 0%nat.
Proof.
  split; [reflexivity|].
  apply (proj1 (run_agrees_with_Run (fun k => k) "A"%string 5 sample_registry 0%nat)).
  reflexivity.
Defined.

Lemma creator_Keys_snapshot_witness :
  creator.Has "Derived"%string sample_creators = true
  /\ "Derived"%string ∈ creator.Keys sample_creators.
Proof.
  split; [reflexivity|].
  apply (proj2 (proj1 (creator_Keys_snapshot sample_creators) "Derived"%string)).
  reflexivity.
Defined.

Lemma tree_index_round_trip_witness :
  0 <= 2 <= uint_max
  /\ archiver_wrapper_json.push_index j_null "Size" 2
     = Ok (j_object [("Size"%string, j_number_unsigned 2)])
  /\ archiver_wrapper_json.pop_index (j_object [("Size"%string, j_number_unsigned 2)]) "Size"
     = (Ok 2, j_object [("Size"%string, j_number_unsigned 2)]).
Proof.
  assert (Hr : 0 <= 2 <= uint_max) by (unfold uint_max; lia).
  split; [exact Hr|]. split; [reflexivity|].
  apply (proj1 (tree_index_round_trip j_null "Size" 2 Hr)). reflexivity.
Defined.

Lemma tree_pop_index_missing_field_witness :
  find_member "Size" [("Class"%string, j_number_integer 7)] = None
  /\ archiver_wrapper_json.pop_index sample_untyped_document "Size"
     = (Throw (type_error 302 "type must be number, but is null"),
        j_object [("Class"%string, j_number_integer 7); ("Size"%string, j_null)]).
Proof.
  split; [reflexivity|].
  apply (proj1 (tree_pop_index_missing_field
                  [("Class"%string, j_number_integer 7)] "Size" eq_refl)).
Defined.

Lemma tree_class_name_and_index_witness :
  "Size"%string <> "Class"%string
  /\ 0 <= 2 <= uint_max
  /\ archiver_wrapper_json.push_class_name j_null "Derived"
     = Ok (j_object [("Class"%string, j_string "Derived")])
  /\ exists a2,
       archiver_wrapper_json.push_index
         (j_object [("Class"%string, j_string "Derived")]) "Size" 2 = Ok a2
       /\ archiver_wrapper_json.pop_class_name a2 [] = (Ok "Derived"%string, a2, [])
       /\ archiver_wrapper_json.pop_index a2 "Size" = (Ok 2, a2).
Proof.
  assert (Hne : "Size"%string <> "Class"%string) by discriminate.
  assert (Hr : 0 <= 2 <= uint_max) by (unfold uint_max; lia).
  split; [exact Hne|]. split; [exact Hr|]. split; [reflexivity|].
  apply (tree_class_name_and_index j_null "Derived" "Size" 2 [] _ Hne Hr eq_refl).
Defined.


Lemma tree_scalar_round_trip_witness :
  int_min <= -5 <= int_max
  /\ 0 <= 7 <= uint_max
  /\ archiver_wrapper_json.pop_int (archiver_wrapper_json.push_int j_null (-5)) = Ok (-5).
Proof.
  assert (Hi : int_min <= -5 <= int_max) by (unfold int_min, int_max; lia).
  assert (Hu : 0 <= 7 <= uint_max) by (unfold uint_max; lia).
  split; [exact Hi|]. split; [exact Hu|].
  apply (proj1 (tree_scalar_round_trip j_null (-5) 7 true "text" Hi Hu)).
Defined.

Lemma tree_c_str_one_way_witness :
  archiver_wrapper_json.pop_string (archiver_wrapper_json.push_c_str j_null (Some "text"%string))
  = Ok "text"%string
  /\ archiver_wrapper_json.pop_string (archiver_wrapper_json.push_c_str j_null None)
     = Throw (type_error 302 "type must be string, but is null").
Proof.
  split.
  - apply (proj1 (tree_c_str_one_way j_null (Some "text"%string)) "text"%string eq_refl).
  - apply (proj2 (proj2 (tree_c_str_one_way j_null None) eq_refl)).
Defined.

Lemma push_class_name_overwrites_witness :
  archiver_wrapper_json.push_class_name j_null "Base"
  = Ok (j_object [("Class"%string, j_string "Base")])
  /\ exists a2,
       archiver_wrapper_json.push_class_name
         (j_object [("Class"%string, j_string "Base")]) "Derived" = Ok a2
       /\ archiver_wrapper_json.pop_class_name a2 [] = (Ok "Derived"%string, a2, [])
       /\ archiver_wrapper_json.size a2
          = archiver_wrapper_json.size (j_object [("Class"%string, j_string "Base")]).
Proof.
  split; [reflexivity|].
  apply (push_class_name_overwrites j_null "Base" "Derived" _ [] eq_refl).
Defined.

Lemma stream_enum_round_trip_witness :
  int_min <= underlying_value Red <= int_max
  /\ static_cast_enum (underlying_value Red) = Red
  /\ archiver_wrapper_stream.pop_enum big_endian
       (archiver_wrapper_stream.push_enum big_endian [] Red ++ [x07])
     = Ok (Red, [x07]).
Proof.
  assert (Hr : int_min <= underlying_value Red <= int_max).
  { unfold int_min, int_max. simpl. lia. }
  split; [exact Hr|]. split; [reflexivity|].
  apply (stream_enum_round_trip big_endian Red [x07] Hr eq_refl).
Defined.

Lemma stream_index_round_trip_witness :
  0 <= 2 <= uint_max
  /\ archiver_wrapper_stream.pop_index little_endian
       (archiver_wrapper_stream.push_index little_endian [] "first" 2 ++ [x07]) "second"
     = Ok (2, [x07]).
Proof.
  assert (Hr : 0 <= 2 <= uint_max) by (unfold uint_max; lia).
  split; [exact Hr|].
  apply (proj2 (proj2 (stream_index_round_trip little_endian [] [x07] "first" "second" 2 Hr))).
Defined.

Lemma stream_reads_in_order_witness :
  0 <= 3 <= uint_max
  /\ int_min <= underlying_value Red <= int_max
  /\ exists s1 s2,
       archiver_wrapper_stream.size little_endian
         (archiver_wrapper_stream.push_monostate little_endian
            (archiver_wrapper_stream.push_enum little_endian
               (archiver_wrapper_stream.resize little_endian [] 3) Red) tt)
       = Ok (3, s1)
       /\ archiver_wrapper_stream.pop_enum little_endian s1 = Ok (Red, s2)
       /\ archiver_wrapper_stream.pop_monostate little_endian s2 = Ok (tt, []).
Proof.
  assert (Hn : 0 <= 3 <= uint_max) by (unfold uint_max; lia).
  assert (Hr : int_min <= underlying_value Red <= int_max).
  { unfold int_min, int_max. simpl. lia. }
  split; [exact Hn|]. split; [exact Hr|].
  apply (stream_reads_in_order little_endian 3 Red Hn Hr eq_refl).
Defined.

Lemma read_binary_replaces_buffer_witness :
  [x01] <> ([] : list byte)
  /\ Z.of_nat (length [x01]) <= access.max_size
  /\ access.read_binary (Some [x01]) [x02; x03] = (Ok tt, [x01]).
Proof.
  assert (Hne : [x01] <> ([] : list byte)) by discriminate.
  assert (Hmax : Z.of_nat (length [x01]) <= access.max_size).
  { unfold access.max_size. simpl. lia. }
  split; [exact Hne|]. split; [exact Hmax|].
  apply (proj1 (read_binary_replaces_buffer [x01] [x02; x03] Hne Hmax)).
Defined.


Lemma read_binary_unopened_witness :
  access.tellg None = -1
  /\ exists what,
       access.read_binary None [x01] = (Throw (length_error what), [x01]).
Proof.
  split; [reflexivity|].
  apply (proj2 (read_binary_unopened None [x01] eq_refl)).
Defined.
